(** * PCL point representations

    A shallow embedding of [pcl/point_representation.h] (the
    [PointRepresentation] base class, the default, feature and custom
    representations) and of the pyramid test of
    [test/test_registration.cpp].

    Conventions.
    - A C++ [float] is an IEEE-754 binary32 value, given by the library's
      [spec_float] at precision 24 and maximal exponent 128.  NaN payloads
      are not distinguished.
    - [int] and [size_t] values are integers in [Z]; every conversion
      between them is written out with its wrap-around.
    - A C array ([float *]) is a [list float]; a read or a write outside
      the array, a failed allocation and a thrown exception are all the
      result [None]. *)

From Stdlib Require Import ZArith QArith Qabs Lia Lqa Bool.
From Stdlib Require Import Floats.SpecFloat.
From stdpp Require Import base option list vector numbers.

Local Open Scope Z_scope.

(* ===================================================================== *)
(** * Part I: definitions *)
(* ===================================================================== *)

(** ** binary32 arithmetic *)

Module Float32.

Definition prec : Z := 24.
Definition emax : Z := 128.

Definition float : Type := spec_float.

(** The values a [float] variable can hold: zeros, infinities, NaN and the
    finite numbers whose mantissa and exponent are canonical. *)
Definition is_float (x : float) : Prop := valid_binary prec emax x = true.

Definition mul : float -> float -> float := SFmul prec emax.

Definition zero : float := S754_zero false.
(** [1.0f], mantissa 2^23 at exponent -23. *)
Definition one : float := S754_finite false 8388608 (-23).
Definition two : float := S754_finite false 8388608 (-22).
Definition minus_one : float := S754_finite true 8388608 (-23).
Definition nan : float := S754_nan.
Definition infinity : float := S754_infinity false.

(** [pcl_isfinite] (from [pcl/win32_macros.h]) is [std::isfinite]. *)
Definition pcl_isfinite (x : float) : bool :=
  match x with
  | S754_zero _ | S754_finite _ _ _ => true
  | S754_infinity _ | S754_nan => false
  end.

(** [0.0f < x] *)
Definition is_positive (x : float) : bool := SFltb zero x.

End Float32.

Export Float32.

(** ** [int] and [size_t] *)

Module CInt.

Definition INT_MAX : Z := 2147483647.
Definition INT_MIN : Z := -2147483648.

Definition is_int (z : Z) : Prop := INT_MIN <= z <= INT_MAX.

(** Conversion to [size_t] (64 bits) and the arithmetic on it are modulo
    2^64; conversion to [int] keeps the low 32 bits, two's complement.
    A 32-bit [size_t] gives the same [int] in every computation below. *)
Definition to_size_t (z : Z) : Z := z mod 2 ^ 64.
Definition to_uint32 (z : Z) : Z := z mod 2 ^ 32.
Definition to_int (z : Z) : Z := (z + 2 ^ 31) mod 2 ^ 32 - 2 ^ 31.

Definition sizeof_float : Z := 4.

End CInt.

Export CInt.

(** ** Arrays and counted loops *)

Abbreviation buffer := (list float) (only parsing).

(** [a[i]] for an [int] index. *)
Definition read (a : buffer) (i : Z) : option float :=
  if decide (0 <= i) then a !! Z.to_nat i else None.

(** [a[i] = x] *)
Definition store (a : buffer) (i : nat) (x : float) : option buffer :=
  if decide (i < length a)%nat then Some (<[i := x]> a) else None.

(** [for (; todo iterations left; ++i) body], the state threaded through. *)
Fixpoint for_loop {S : Type} (body : nat -> S -> option S)
    (i todo : nat) (s : S) : option S :=
  match todo with
  | O => Some s
  | Datatypes.S k => s' ← body i s; for_loop body (Datatypes.S i) k s'
  end.

(** [for (int i = 0; i < n; ++i) body] *)
Definition for_upto {S : Type} (n : Z) (body : nat -> S -> option S) (s : S)
    : option S :=
  for_loop body 0%nat (Z.to_nat n) s.

(** [new float[n]]: fails for a negative [n]; the cells of the new array hold
    indeterminate values, here the [n] floats [junk]. *)
Definition new_float_array (n : Z) (junk : buffer) : option buffer :=
  if decide (0 <= n /\ length junk = Z.to_nat n) then Some junk else None.

(** [v.resize (n)] of a [std::vector<float>]: keeps the first [n] elements
    and fills up with [0.0f]; a negative [n] converts to a size no vector
    can have. *)
Definition vector_resize (v : list float) (n : Z) : option (list float) :=
  if decide (0 <= n) then Some (resize (Z.to_nat n) zero v) else None.

(** ** [PointRepresentation] *)

(** The base class: its two data members and the pure virtual
    [copyToFloatArray], which writes into the array it is handed. *)
Record PointRepresentation (PointT : Type) : Type := mkPointRepresentation {
  nr_dimensions_ : Z;
  alpha_ : list float;
  copyToFloatArray : PointT -> buffer -> option buffer
}.

Arguments mkPointRepresentation {PointT} _ _ _.
Arguments nr_dimensions_ {PointT} _.
Arguments alpha_ {PointT} _.
Arguments copyToFloatArray {PointT} _ _ _.

Section PointRepresentation.
Context {PointT : Type}.
Implicit Types (rep : PointRepresentation PointT) (p : PointT).

Definition getNumberOfDimensions rep : Z := nr_dimensions_ rep.

(** The array [copyToFloatArray] fills when handed a fresh
    [new float[nr_dimensions_]]: the projection of the point. *)
Definition project rep p (junk : buffer) : option buffer :=
  temp ← new_float_array (nr_dimensions_ rep) junk;
  copyToFloatArray rep p temp.

(** The loop of [isValid], leaving at the first non-finite cell. *)
Fixpoint isValid_loop (temp : buffer) (i todo : nat) : option bool :=
  match todo with
  | O => Some true
  | S k =>
      x ← temp !! i;
      if pcl_isfinite x then isValid_loop temp (S i) k else Some false
  end.

Definition isValid rep p (junk : buffer) : option bool :=
  temp ← project rep p junk;
  isValid_loop temp 0%nat (Z.to_nat (nr_dimensions_ rep)).

Definition vectorize rep p (junk out : buffer) : option buffer :=
  temp ← project rep p junk;
  match alpha_ rep with
  | [] =>
      for_upto (nr_dimensions_ rep)
        (fun i out => x ← temp !! i; store out i x) out
  | _ =>
      for_upto (nr_dimensions_ rep)
        (fun i out => x ← temp !! i; a ← alpha_ rep !! i; store out i (mul x a))
        out
  end.

Definition setRescaleValues rep (rescale_array : buffer)
    : option (PointRepresentation PointT) :=
  alpha ← vector_resize (alpha_ rep) (nr_dimensions_ rep);
  alpha ← for_upto (nr_dimensions_ rep)
            (fun i alpha => x ← rescale_array !! i; store alpha i x) alpha;
  Some (mkPointRepresentation (nr_dimensions_ rep) alpha (copyToFloatArray rep)).

(** An array keeps its size whatever is written into it. *)
Definition keeps_size rep : Prop :=
  forall p b b', copyToFloatArray rep p b = Some b' -> length b' = length b.

End PointRepresentation.

(** ** Point types

    The point types are declared in [pcl/point_types.h] and their traits in
    [pcl/ros]; a point type enters here through what this header asks of it:
    its [sizeof] and the view of a point as an array of floats (the
    cast of its address to a pointer to [float]). *)
Class PointLayout (PointT : Type) : Type := {
  sizeof_PointT : Z;
  as_floats : PointT -> list float;
  sizeof_nonneg : 0 <= sizeof_PointT;
  as_floats_length :
    forall p, Z.of_nat (length (as_floats p)) = sizeof_PointT / sizeof_float
}.

Arguments sizeof_PointT PointT {_}.

(** [sizeof (PointT) / sizeof (float)] *)
Definition total_floats (PointT : Type) `{PointLayout PointT} : Z :=
  sizeof_PointT PointT / sizeof_float.

(** A point type that is nothing but [n] floats,
    [struct { float data[n]; }]. *)
#[global] Instance vec_layout (n : nat) : PointLayout (vec float n).
Proof.
  refine {| sizeof_PointT := 4 * Z.of_nat n; as_floats := vec_to_list |}.
  - lia.
  - intros p. rewrite length_vec_to_list. unfold sizeof_float.
    rewrite Z.mul_comm, Z.div_mul; lia.
Defined.

(** ** [DefaultPointRepresentation], the primary template *)

Section DefaultPointRepresentation.
Context (PointDefault : Type) `{PointLayout PointDefault}.

Definition DefaultPointRepresentation_dims : Z :=
  let nr_dimensions_ := to_int (to_size_t (total_floats PointDefault)) in
  if 3 <? nr_dimensions_ then 3 else nr_dimensions_.

Definition DefaultPointRepresentation_copy (nr : Z)
    (p : PointDefault) (out : buffer) : option buffer :=
  let ptr := as_floats p in
  for_upto nr (fun i out => x ← ptr !! i; store out i x) out.

Definition DefaultPointRepresentation : PointRepresentation PointDefault :=
  let nr := DefaultPointRepresentation_dims in
  mkPointRepresentation nr [] (DefaultPointRepresentation_copy nr).

End DefaultPointRepresentation.

(** ** [CustomPointRepresentation] *)

Section CustomPointRepresentation.
Context (PointDefault : Type) `{PointLayout PointDefault}.

(** [sizeof (PointDefault) / sizeof (float) - start_dim_] is computed in
    [size_t] and converted to [int] by the assignment. *)
Definition CustomPointRepresentation_dims (max_dim_ start_dim_ : Z) : Z :=
  let nr_dimensions_ :=
    to_int (to_size_t (to_size_t (total_floats PointDefault)
                       - to_size_t start_dim_)) in
  if max_dim_ <? nr_dimensions_ then max_dim_ else nr_dimensions_.

(** [ptr] is the point's float array advanced by [start_dim_], so
    [ptr[i]] is cell [start_dim_ + i] of the point. *)
Definition CustomPointRepresentation_copy (nr start_dim_ : Z)
    (p : PointDefault) (out : buffer) : option buffer :=
  for_upto nr
    (fun i out => x ← read (as_floats p) (start_dim_ + Z.of_nat i); store out i x)
    out.

Definition CustomPointRepresentation (max_dim start_dim : Z)
    : PointRepresentation PointDefault :=
  let nr := CustomPointRepresentation_dims max_dim start_dim in
  mkPointRepresentation nr [] (CustomPointRepresentation_copy nr start_dim).

End CustomPointRepresentation.

(** ** [DefaultFeatureRepresentation] *)

Definition Z_sum (l : list Z) : Z := foldr Z.add 0 l.

(** What the header uses of [pcl::traits] for a feature type: the keys of
    [fieldList], [datatype<PointDefault, Key>::size] (a [uint32_t], one for a
    scalar field and the length for an array field), whether
    [datatype<PointDefault, Key>::type] is an array type, and the value of
    element [i] of a field converted to [float]. *)
Class FeatureTraits (PointDefault : Type) : Type := {
  Key : Type;
  FieldList : list Key;
  datatype_size : Key -> Z;
  datatype_is_array : Key -> bool;
  field_element : PointDefault -> Key -> nat -> option float
}.

Arguments Key PointDefault {_}.
Arguments FieldList PointDefault {_}.

Section DefaultFeatureRepresentation.
Context (PointDefault : Type) `{FeatureTraits PointDefault}.

(** [IncrementFunctor::operator()]: [n_ += size] adds an [int] and a
    [uint32_t], so the sum is taken modulo 2^32 and converted back. *)
Definition IncrementFunctor (n_ : Z) (k : Key PointDefault) : Z :=
  to_int (to_uint32 (to_uint32 n_ + to_uint32 (datatype_size k))).

(** [pcl::for_each_type <FieldList> (IncrementFunctor (nr_dimensions_))] *)
Definition DefaultFeatureRepresentation_dims : Z :=
  fold_left IncrementFunctor (FieldList PointDefault) 0.

(** [NdCopyPointFunctor::operator()]: the state is the output array and
    [f_idx_]; a scalar field writes one cell, an array field [NrDims]. *)
Definition NdCopyPointFunctor (p1 : PointDefault)
    (st : buffer * nat) (k : Key PointDefault) : option (buffer * nat) :=
  let '(p2, f_idx) := st in
  if datatype_is_array k then
    for_upto (datatype_size k)
      (fun i '(p2, f_idx) =>
         v ← field_element p1 k i;
         p2 ← store p2 f_idx v;
         Some (p2, S f_idx))
      (p2, f_idx)
  else
    v ← field_element p1 k 0%nat;
    p2 ← store p2 f_idx v;
    Some (p2, S f_idx).

Definition DefaultFeatureRepresentation_copy
    (p : PointDefault) (out : buffer) : option buffer :=
  st ← foldl (fun st k => st ← st; NdCopyPointFunctor p st k)
             (Some (out, 0%nat)) (FieldList PointDefault);
  Some st.1.

Definition DefaultFeatureRepresentation : PointRepresentation PointDefault :=
  mkPointRepresentation DefaultFeatureRepresentation_dims []
    DefaultFeatureRepresentation_copy.

End DefaultFeatureRepresentation.

(** ** The explicit specialisations of [DefaultPointRepresentation] *)

Module PointXYZ.
Record t : Type := mk { x : float; y : float; z : float }.
End PointXYZ.

Module PointXYZI.
Record t : Type := mk { x : float; y : float; z : float; intensity : float }.
End PointXYZI.

Module PointNormal.
Record t : Type := mk {
  x : float; y : float; z : float;
  normal_x : float; normal_y : float; normal_z : float;
  curvature : float
}.
End PointNormal.

(** [out[0] = x; out[1] = y; out[2] = z;] *)
Definition copy_xyz (x y z : float) (out : buffer) : option buffer :=
  out ← store out 0 x;
  out ← store out 1 y;
  store out 2 z.

Definition DefaultPointRepresentation_PointXYZ : PointRepresentation PointXYZ.t :=
  mkPointRepresentation 3 []
    (fun p out => copy_xyz (PointXYZ.x p) (PointXYZ.y p) (PointXYZ.z p) out).

(** [p.intensity] is not part of the vectorization. *)
Definition DefaultPointRepresentation_PointXYZI : PointRepresentation PointXYZI.t :=
  mkPointRepresentation 3 []
    (fun p out => copy_xyz (PointXYZI.x p) (PointXYZI.y p) (PointXYZI.z p) out).

Definition DefaultPointRepresentation_PointNormal
    : PointRepresentation PointNormal.t :=
  mkPointRepresentation 3 []
    (fun p out => copy_xyz (PointNormal.x p) (PointNormal.y p) (PointNormal.z p) out).

(** Modelled from the spec: the declaration of [FPFHSignature33] in
    [pcl/point_types.h], a length-33 float histogram and no other field. *)
Module FPFHSignature33.
Record t : Type := mk { histogram : list float }.

#[global] Instance traits : FeatureTraits t := {|
  Key := unit;
  FieldList := [tt];
  datatype_size := fun _ => 33;
  datatype_is_array := fun _ => true;
  field_element := fun p _ i => histogram p !! i
|}.
End FPFHSignature33.

(** Modelled from the spec: the declaration of [VFHSignature308] in
    [pcl/point_types.h], a float histogram of 308 bins and no other field. *)
Module VFHSignature308.
Record t : Type := mk { histogram : list float }.

#[global] Instance traits : FeatureTraits t := {|
  Key := unit;
  FieldList := [tt];
  datatype_size := fun _ => 308;
  datatype_is_array := fun _ => true;
  field_element := fun p _ i => histogram p !! i
|}.
End VFHSignature308.

(** Modelled from the spec: the declaration of [PPFSignature] in
    [pcl/point_types.h], the four scalar floats f1, f2, f3, f4. *)
Module PPFSignature.
Record t : Type := mk { f1 : float; f2 : float; f3 : float; f4 : float }.

Inductive field : Type := F1 | F2 | F3 | F4.

#[global] Instance traits : FeatureTraits t := {|
  Key := field;
  FieldList := [F1; F2; F3; F4];
  datatype_size := fun _ => 1;
  datatype_is_array := fun _ => false;
  field_element := fun p k i =>
    match i with
    | O => Some match k with F1 => f1 p | F2 => f2 p | F3 => f3 p | F4 => f4 p end
    | _ => None
    end
|}.
End PPFSignature.

Definition DefaultPointRepresentation_FPFHSignature33
    : PointRepresentation FPFHSignature33.t :=
  DefaultFeatureRepresentation FPFHSignature33.t.

Definition DefaultPointRepresentation_VFHSignature308
    : PointRepresentation VFHSignature308.t :=
  DefaultFeatureRepresentation VFHSignature308.t.

Definition DefaultPointRepresentation_PPFSignature
    : PointRepresentation PPFSignature.t :=
  DefaultFeatureRepresentation PPFSignature.t.


(* ===================================================================== *)
(** ** The pyramid test of [test/test_registration.cpp]

    [TEST (PCL, PyramidFeatureHistogram)] compares the pyramids of two PPF
    feature clouds under three target ranges and asserts the similarity it
    expects under each.  The pyramid class is library code that the test
    only calls; what is embedded here is the test itself: its ranges, as
    the floats its C++ expressions evaluate to, and its three assertions. *)
(* ===================================================================== *)

Module PyramidFeatureHistogramTest.

(** A C++ [double] is an IEEE-754 binary64 value: precision 53, maximal
    exponent 1024. *)
Definition double : Type := spec_float.

Definition dprec : Z := 53.
Definition demax : Z := 1024.

(** The promotion of a [float] operand to [double]; every binary32 value
    is a binary64 value, so nothing is rounded. *)
Definition to_double (x : float) : double :=
  match x with
  | S754_finite s m e => binary_round dprec demax s m e
  | _ => x
  end.

(** The conversion of a [double] to [float], to the nearest binary32 value
    (ties to even), as when a [double] expression initialises one half of
    a [pair<float, float>]. *)
Definition to_float (x : double) : float :=
  match x with
  | S754_finite s m e => binary_round prec emax s m e
  | _ => x
  end.

(** [M_PI] of [math.h], the [double] nearest to pi:
    7074237752028440 * 2^-51 = 3.141592653589793... *)
Definition M_PI : double := S754_finite false 7074237752028440 (-51).

(** The [float] literals of the test with an integral value:
    [0.0f], [1.0f], [2.0f], [5.0f], [10.0f], [20.0f], [50.0f]. *)
Definition float_literal (z : Z) : float := binary_normalize prec emax z 0 false.

(** [-M_PI * k] and [M_PI * k] for a [float] k: the product is taken in
    [double], the unary minus binding tighter than the product. *)
Definition minus_M_PI_times (k : float) : double :=
  SFmul dprec demax (SFopp M_PI) (to_double k).

Definition M_PI_times (k : float) : double :=
  SFmul dprec demax M_PI (to_double k).

(** One range "(min, max)" per dimension of the feature. *)
Definition dim_range : Type := list (float * float).

(** [for (size_t i = 0; i < 3; ++i) v.push_back (pair<float, float>
    (-M_PI * k, M_PI * k)); v.push_back (pair<float, float> (0.0f, d));]
    on an empty vector [v]. *)
Definition angles_and_distance (k d : float) : dim_range :=
  replicate 3 (to_float (minus_M_PI_times k), to_float (M_PI_times k))
  ++ [(float_literal 0, d)].

(** Lines 315-316: three times (-M_PI, M_PI), then (0.0f, 1.0f). *)
Definition dim_range_input : dim_range :=
  replicate 3 (to_float (SFopp M_PI), to_float M_PI)
  ++ [(float_literal 0, float_literal 1)].

(** Lines 317-318. *)
Definition dim_range_target : dim_range :=
  angles_and_distance (float_literal 10) (float_literal 50).

(** Lines 338-339. *)
Definition dim_range_target2 : dim_range :=
  angles_and_distance (float_literal 5) (float_literal 20).

(** Lines 352-353. *)
Definition dim_range_target3 : dim_range :=
  angles_and_distance (float_literal 2) (float_literal 10).



(** The [double] literals of the three assertions (lines 334, 348, 362),
    each the binary64 value nearest to the decimal: 0.739672, 0.801435 and
    0.881507. *)
Definition expected_similarity_value : double :=
  S754_finite false 6662373087152779 (-53).

Definition expected_similarity_value2 : double :=
  S754_finite false 7218684734723347 (-53).

Definition expected_similarity_value3 : double :=
  S754_finite false 7939909193448968 (-53).

(** The tolerance of the three assertions, the literal [1e-4]. *)
Definition abs_error : double :=
  S754_finite false 7378697629483821 (-66).

(** The rational number that a finite float or double stands for. *)
Definition to_Q (x : spec_float) : Q :=
  match x with
  | S754_finite s m e => (inject_Z (cond_Zopp s (Zpos m)) * Qpower 2 e)%Q
  | _ => 0%Q
  end.



End PyramidFeatureHistogramTest.

(* ===================================================================== *)
(** ** What a feature type holds, field by field *)
(* ===================================================================== *)

(** The floats of one field of a feature point, read through the traits: all
    [datatype_size] elements of an array field, the one value of a scalar
    field. *)
Definition field_floats {P : Type} `{FeatureTraits P} (p : P) (k : Key P)
    : option (list float) :=
  if datatype_is_array k then
    mapM (field_element p k) (seq 0 (Z.to_nat (datatype_size k)))
  else v ← field_element p k 0%nat; Some [v].

(** The floats of all the fields, in the order of [FieldList]. *)
Definition feature_floats {P : Type} `{FeatureTraits P} (p : P)
    : option (list float) :=
  mjoin <$> mapM (field_floats p) (FieldList P).

(** Modelled from the spec: layouts of the positional point types of
    [pcl/point_types.h], whose x, y, z are the first three floats (section 6:
    "bit-compatible with float32[3]"); every other cell of the four-float
    blocks is padding, shown here as [zero]. *)
Definition PointXYZ_layout : PointLayout PointXYZ.t.
Proof.
  refine {| sizeof_PointT := 16;
            as_floats := fun q =>
              [PointXYZ.x q; PointXYZ.y q; PointXYZ.z q; zero] |}.
  - lia.
  - reflexivity.
Defined.

Definition PointXYZI_layout : PointLayout PointXYZI.t.
Proof.
  refine {| sizeof_PointT := 32;
            as_floats := fun q =>
              [PointXYZI.x q; PointXYZI.y q; PointXYZI.z q; zero;
               PointXYZI.intensity q; zero; zero; zero] |}.
  - lia.
  - reflexivity.
Defined.

Definition PointNormal_layout : PointLayout PointNormal.t.
Proof.
  refine {| sizeof_PointT := 48;
            as_floats := fun q =>
              [PointNormal.x q; PointNormal.y q; PointNormal.z q; zero;
               PointNormal.normal_x q; PointNormal.normal_y q;
               PointNormal.normal_z q; zero;
               PointNormal.curvature q; zero; zero; zero] |}.
  - lia.
  - reflexivity.
Defined.
(* ===================================================================== *)
(** * Part II: properties of the point representations *)
(* ===================================================================== *)

(** ** binary32: multiplication by [1.0f] *)

Section MulOne.

Local Lemma mul_pow2_23 (m : positive) :
  (m * 8388608)%positive = (m~0~0~0~0~0~0~0~0~0~0~0~0~0~0~0~0~0~0~0~0~0~0~0)%positive.
Proof. rewrite Pos.mul_comm. reflexivity. Qed.

Local Lemma digits2_shift23 (m : positive) :
  Zpos (digits2_pos (m~0~0~0~0~0~0~0~0~0~0~0~0~0~0~0~0~0~0~0~0~0~0~0))
  = Zpos (digits2_pos m) + 23.
Proof. cbn [digits2_pos]. lia. Qed.

Local Lemma shr_by_23 (m : positive) :
  SpecFloat.iter_pos shr_1 23
    {| shr_m := Zpos (m~0~0~0~0~0~0~0~0~0~0~0~0~0~0~0~0~0~0~0~0~0~0~0);
       shr_r := false; shr_s := false |}
  = {| shr_m := Zpos m; shr_r := false; shr_s := false |}.
Proof. reflexivity. Qed.

(** The product of a canonical mantissa with 2^23, at an exponent lowered
    by 23, rounds back to the mantissa it came from. *)
Lemma round_mul_one s m e :
  bounded prec emax m e = true ->
  binary_round_aux prec emax s (Zpos (m * 8388608)) (e + -23) loc_Exact
  = S754_finite s m e.
Proof.
  unfold bounded, canonical_mantissa. intros Hb.
  apply andb_prop in Hb as [Hc He]. apply Z.eqb_eq in Hc.
  rewrite mul_pow2_23.
  unfold binary_round_aux, shr_fexp.
  unfold Zdigits2 at 1. rewrite digits2_shift23.
  replace (Zpos (digits2_pos m) + 23 + (e + -23))
    with (Zpos (digits2_pos m) + e) by lia.
  rewrite Hc.
  replace (e - (e + -23)) with 23 by lia.
  unfold shr at 1. cbn [shr_record_of_loc]. rewrite shr_by_23.
  cbn [shr_m loc_of_shr_record round_nearest_even Zdigits2].
  replace (e + -23 + 23) with e by lia.
  rewrite Hc, Z.sub_diag. cbn [shr shr_record_of_loc shr_m].
  rewrite He. reflexivity.
Qed.

Lemma mul_one_r (x : float) : is_float x -> mul x one = x.
Proof.
  destruct x as [s|s| |s m e]; intros Hx; cbn.
  - by destruct s.
  - by destruct s.
  - done.
  - rewrite round_mul_one by exact Hx. by destruct s.
Qed.

End MulOne.

(** ** [int] conversions *)

Lemma to_int_id z : is_int z -> to_int z = z.
Proof.
  unfold is_int, INT_MIN, INT_MAX, to_int. intros Hz.
  rewrite Z.mod_small; lia.
Qed.

Ltac unfold_ints :=
  unfold is_int, INT_MIN, INT_MAX, to_int, to_size_t, to_uint32 in *;
  change (2 ^ 64) with 18446744073709551616 in *;
  change (2 ^ 32) with 4294967296 in *;
  change (2 ^ 31) with 2147483648 in *.

Lemma to_int_to_size_t z : is_int z -> to_int (to_size_t z) = z.
Proof. unfold_ints. intros Hz. Z.div_mod_to_equations. lia. Qed.

(** A difference taken in [size_t] and converted to [int] is the
    difference, provided that is an [int] at all. *)
Lemma to_int_size_t_sub a b :
  is_int (a - b) -> to_int (to_size_t (to_size_t a - to_size_t b)) = a - b.
Proof. unfold_ints. intros Hz. Z.div_mod_to_equations. lia. Qed.

Lemma to_int_uint32_add a b :
  is_int (a + b) ->
  to_int (to_uint32 (to_uint32 a + to_uint32 b)) = a + b.
Proof. unfold_ints. intros Hz. Z.div_mod_to_equations. lia. Qed.

(** ** Counted loops that fill an array *)

Lemma for_loop_ext {S : Type} (f g : nat -> S -> option S) todo :
  forall i s,
    (forall j s', (i <= j < i + todo)%nat -> f j s' = g j s') ->
    for_loop f i todo s = for_loop g i todo s.
Proof.
  induction todo as [|k IH]; intros i s Hfg; [done|].
  cbn. rewrite Hfg by lia. destruct (g i s) as [s'|]; [|done].
  cbn. apply IH. intros j s'' Hj. apply Hfg. lia.
Qed.

Lemma store_Some (a : buffer) i x :
  (i < length a)%nat -> store a i x = Some (<[i := x]> a).
Proof. intros Hi. unfold store. by rewrite decide_True. Qed.

Lemma store_length (a a' : buffer) i x :
  store a i x = Some a' -> length a' = length a.
Proof.
  unfold store. case_decide; [|done]. intros [= <-]. apply length_insert.
Qed.

(** A loop storing [g j] into cell [j], for [j] from [i] to [i + todo - 1],
    into an array that already agrees with [vs] below [i]. *)
Lemma for_loop_fill (g : nat -> option float) (vs : list float) todo :
  forall i (out : buffer),
    (i + todo <= length out)%nat ->
    length vs = (i + todo)%nat ->
    (forall j, (i <= j < i + todo)%nat -> g j = vs !! j) ->
    take i out = take i vs ->
    for_loop (fun j out => x ← g j; store out j x) i todo out
    = Some (vs ++ drop (i + todo) out).
Proof.
  induction todo as [|k IH]; intros i out Hout Hvs Hg Hpre.
  - cbn. f_equal. rewrite Nat.add_0_r in *.
    rewrite <- (take_drop i out) at 1. rewrite Hpre.
    by rewrite take_ge by lia.
  - cbn. rewrite Hg by lia.
    destruct (lookup_lt_is_Some_2 vs i) as [x Hx]; [lia|].
    rewrite Hx. cbn. rewrite store_Some by lia. cbn.
    rewrite IH.
    + do 2 f_equal.
      replace (S i + k)%nat with (i + S k)%nat by lia.
      by rewrite drop_insert_lt by lia.
    + rewrite length_insert. lia.
    + lia.
    + intros j Hj. apply Hg. lia.
    + rewrite (take_S_r vs i x Hx).
      rewrite (take_S_r (<[i:=x]> out) i x)
        by (apply list_lookup_insert_eq; lia).
      rewrite take_insert_ge by lia. by rewrite Hpre.
Qed.

Lemma for_upto_fill (g : nat -> option float) (vs : list float) n (out : buffer) :
  (Z.to_nat n <= length out)%nat ->
  length vs = Z.to_nat n ->
  (forall j, (j < Z.to_nat n)%nat -> g j = vs !! j) ->
  for_upto n (fun j out => x ← g j; store out j x) out
  = Some (vs ++ drop (Z.to_nat n) out).
Proof.
  intros Hout Hvs Hg. unfold for_upto.
  rewrite (for_loop_fill g vs); [done|lia|lia| |done].
  intros j Hj. apply Hg. lia.
Qed.

(** ** The base class *)

Section BaseClass.
Context {PointT : Type}.
Implicit Types (rep : PointRepresentation PointT) (p : PointT).

Lemma project_Some rep p junk temp :
  keeps_size rep ->
  project rep p junk = Some temp ->
  0 <= nr_dimensions_ rep /\ length temp = Z.to_nat (nr_dimensions_ rep).
Proof.
  intros Hk. unfold project, new_float_array.
  case_decide as Hn; [|done]. cbn. intros Hc.
  apply Hk in Hc. lia.
Qed.

Lemma isValid_loop_spec (temp : buffer) todo : forall i,
  (i + todo <= length temp)%nat ->
  isValid_loop temp i todo
  = Some (forallb pcl_isfinite (take todo (drop i temp))).
Proof.
  induction todo as [|k IH]; intros i Hi; [done|].
  cbn [isValid_loop].
  destruct (lookup_lt_is_Some_2 temp i) as [x Hx]; [lia|].
  rewrite Hx. cbn [mbind option_bind].
  rewrite (drop_S temp x i Hx). cbn [take forallb].
  destruct (pcl_isfinite x); [|done].
  rewrite IH by lia. done.
Qed.

Lemma isValid_spec rep p junk temp :
  keeps_size rep ->
  project rep p junk = Some temp ->
  isValid rep p junk = Some (forallb pcl_isfinite temp).
Proof.
  intros Hk Hp. destruct (project_Some _ _ _ _ Hk Hp) as [Hn Hlen].
  unfold isValid. rewrite Hp. cbn [mbind option_bind].
  rewrite isValid_loop_spec by lia.
  rewrite drop_0, take_ge by lia. done.
Qed.

Lemma setRescaleValues_spec rep (rescale_array : buffer) :
  0 <= nr_dimensions_ rep ->
  (Z.to_nat (nr_dimensions_ rep) <= length rescale_array)%nat ->
  setRescaleValues rep rescale_array
  = Some (mkPointRepresentation (nr_dimensions_ rep)
            (take (Z.to_nat (nr_dimensions_ rep)) rescale_array)
            (copyToFloatArray rep)).
Proof.
  intros Hn Hlen. unfold setRescaleValues, vector_resize.
  rewrite decide_True by done. cbn [mbind option_bind].
  rewrite (for_upto_fill (fun j => rescale_array !! j)
             (take (Z.to_nat (nr_dimensions_ rep)) rescale_array)).
  - cbn [mbind option_bind]. rewrite drop_ge by (rewrite length_resize; lia).
    by rewrite app_nil_r.
  - rewrite length_resize. lia.
  - rewrite length_take. lia.
  - intros j Hj. by rewrite lookup_take_lt.
Qed.

(** What [vectorize] writes, for a rescale vector that is empty or as long
    as the representation has dimensions. *)
Lemma vectorize_spec rep p junk (out : buffer) temp :
  keeps_size rep ->
  project rep p junk = Some temp ->
  (Z.to_nat (nr_dimensions_ rep) <= length out)%nat ->
  (alpha_ rep = [] ->
   vectorize rep p junk out
   = Some (temp ++ drop (Z.to_nat (nr_dimensions_ rep)) out))
  /\
  (length (alpha_ rep) = Z.to_nat (nr_dimensions_ rep) ->
   vectorize rep p junk out
   = Some (zip_with mul temp (alpha_ rep)
           ++ drop (Z.to_nat (nr_dimensions_ rep)) out)).
Proof.
  intros Hk Hp Hout. destruct (project_Some _ _ _ _ Hk Hp) as [Hn Hlen].
  unfold vectorize. rewrite Hp. cbn [mbind option_bind]. split.
  - intros ->. apply for_upto_fill; [done|done|done].
  - intros Ha. destruct (alpha_ rep) as [|a0 al] eqn:Hal.
    + cbn in Ha. rewrite <- Ha in *. destruct temp; [|done].
      unfold for_upto. by rewrite <- Ha.
    + rewrite <- Hal in *. unfold for_upto.
      rewrite (for_loop_ext _
                 (fun j out => x ← (x ← temp !! j; a ← alpha_ rep !! j; Some (mul x a));
                               store out j x)).
      * apply (for_upto_fill _ (zip_with mul temp (alpha_ rep))); [done| |].
        -- rewrite length_zip_with. lia.
        -- intros j Hj. rewrite lookup_zip_with.
           destruct (temp !! j); [|done]. cbn.
           by destruct (alpha_ rep !! j).
      * intros j s' _. destruct (temp !! j); [|done]. cbn.
        by destruct (alpha_ rep !! j).
Qed.

End BaseClass.

(** ** Every representation of the header keeps the size of its array *)

Lemma for_loop_store_length (g : nat -> buffer -> option float) todo :
  forall i (out out' : buffer),
    for_loop (fun j out => x ← g j out; store out j x) i todo out = Some out' ->
    length out' = length out.
Proof.
  induction todo as [|k IH]; intros i out out'; cbn; [by intros [= <-]|].
  destruct (g i out) as [x|]; [|done]. cbn.
  destruct (store out i x) as [o|] eqn:Hs; [|done]. cbn.
  intros Hl. apply IH in Hl. apply store_length in Hs. lia.
Qed.

Lemma copy_xyz_spec (x y z : float) (out : buffer) :
  (3 <= length out)%nat ->
  copy_xyz x y z out = Some (x :: y :: z :: drop 3 out).
Proof.
  intros Hl. destruct out as [|o0 [|o1 [|o2 out]]]; cbn in Hl; try lia.
  unfold copy_xyz, store. cbn [length].
  rewrite !decide_True by lia. cbn. rewrite decide_True by (cbn; lia). cbn.
  rewrite decide_True by (cbn; lia). by rewrite drop_0.
Qed.

Lemma copy_xyz_length (x y z : float) (out out' : buffer) :
  copy_xyz x y z out = Some out' -> length out' = length out.
Proof.
  unfold copy_xyz. intros Hc.
  destruct (store out 0 x) as [o1|] eqn:H1; [|done]. cbn in Hc.
  destruct (store o1 1 y) as [o2|] eqn:H2; [|done]. cbn in Hc.
  apply store_length in H1, H2, Hc. lia.
Qed.

Lemma keeps_size_PointXYZ : keeps_size DefaultPointRepresentation_PointXYZ.
Proof. intros p b b'. apply copy_xyz_length. Qed.

Lemma keeps_size_PointXYZI : keeps_size DefaultPointRepresentation_PointXYZI.
Proof. intros p b b'. apply copy_xyz_length. Qed.

Lemma keeps_size_PointNormal : keeps_size DefaultPointRepresentation_PointNormal.
Proof. intros p b b'. apply copy_xyz_length. Qed.

Lemma keeps_size_Default (P : Type) `{PointLayout P} :
  keeps_size (DefaultPointRepresentation P).
Proof.
  intros p b b'. cbn. unfold DefaultPointRepresentation_copy, for_upto.
  apply (for_loop_store_length (fun j _ => as_floats p !! j)).
Qed.

Lemma keeps_size_Custom (P : Type) `{PointLayout P} max_dim start_dim :
  keeps_size (CustomPointRepresentation P max_dim start_dim).
Proof.
  intros p b b'. cbn. unfold CustomPointRepresentation_copy, for_upto.
  apply (for_loop_store_length
           (fun j _ => read (as_floats p) (start_dim + Z.of_nat j))).
Qed.

(** ** [vectorize], [isValid] and [setRescaleValues] *)

(** C2.  After [setRescaleValues] has been given an array [a] of
    [getNumberOfDimensions] floats, [vectorize] writes into cell [i], for every
    [i] below [getNumberOfDimensions], the product of the [i]-th projected
    component of the point and [a[i]]; with no rescale values set it writes
    the projection itself. *)
Theorem vectorize_applies_rescale {PointT : Type}
    (rep : PointRepresentation PointT) (p : PointT) (junk out temp a : buffer) :
  keeps_size rep ->
  project rep p junk = Some temp ->
  (Z.to_nat (getNumberOfDimensions rep) <= length out)%nat ->
  Z.of_nat (length a) = getNumberOfDimensions rep ->
  (alpha_ rep = [] ->
   vectorize rep p junk out
   = Some (temp ++ drop (Z.to_nat (getNumberOfDimensions rep)) out))
  /\
  exists rep' out',
    setRescaleValues rep a = Some rep'
    /\ getNumberOfDimensions rep' = getNumberOfDimensions rep
    /\ project rep' p junk = Some temp
    /\ vectorize rep' p junk out = Some out'
    /\ forall i, (i < Z.to_nat (getNumberOfDimensions rep))%nat ->
         exists x ai,
           temp !! i = Some x /\ a !! i = Some ai /\ out' !! i = Some (mul x ai).
Proof.
  unfold getNumberOfDimensions. intros Hk Hp Hout Ha.
  destruct (project_Some _ _ _ _ Hk Hp) as [Hn Hlen].
  split; [apply (vectorize_spec rep p junk out temp Hk Hp Hout)|].
  rewrite setRescaleValues_spec by lia.
  rewrite take_ge by lia.
  set (rep' := mkPointRepresentation (nr_dimensions_ rep) a (copyToFloatArray rep)).
  assert (Hk' : keeps_size rep') by exact Hk.
  assert (Hp' : project rep' p junk = Some temp) by exact Hp.
  destruct (vectorize_spec rep' p junk out temp Hk' Hp' Hout) as [_ Hv].
  exists rep', (zip_with mul temp a ++ drop (Z.to_nat (nr_dimensions_ rep)) out).
  split; [done|]. split; [done|]. split; [done|].
  split; [apply Hv; cbn; lia|].
  intros i Hi.
  destruct (lookup_lt_is_Some_2 temp i) as [x Hx]; [lia|].
  destruct (lookup_lt_is_Some_2 a i) as [ai Hai]; [lia|].
  exists x, ai. split; [done|]. split; [done|].
  rewrite lookup_app_l by (rewrite length_zip_with; lia).
  rewrite lookup_zip_with, Hx. cbn. by rewrite Hai.
Qed.

Lemma vectorize_applies_rescale_witness :
  exists rep' out',
    setRescaleValues DefaultPointRepresentation_PointXYZI [two; one; two]
    = Some rep'
    /\ vectorize rep' (PointXYZI.mk one two minus_one infinity)
         [nan; nan; nan] [zero; zero; zero; zero]
       = Some out'
    /\ out' !! 1%nat = Some (mul two one).
Proof.
  destruct (vectorize_applies_rescale DefaultPointRepresentation_PointXYZI
              (PointXYZI.mk one two minus_one infinity)
              [nan; nan; nan] [zero; zero; zero; zero]
              [one; two; minus_one] [two; one; two])
    as [_ (rep' & out' & Hs & _ & _ & Hv & Hi)].
  - exact keeps_size_PointXYZI.
  - reflexivity.
  - cbn. lia.
  - reflexivity.
  - exists rep', out'. split; [exact Hs|]. split; [exact Hv|].
    destruct (Hi 1%nat) as (x & ai & Hx & Hai & Ho); [cbn; lia|].
    cbn in Hx, Hai. injection Hx as <-. injection Hai as <-. exact Ho.
Defined.

(** C3.  [vectorize] with no rescale values set writes the projection of the
    point, and so does [vectorize] after [setRescaleValues] has been given an
    array of ones. *)
Theorem vectorize_unit_rescale {PointT : Type}
    (rep : PointRepresentation PointT) (p : PointT) (junk out temp : buffer) :
  keeps_size rep ->
  project rep p junk = Some temp ->
  Forall is_float temp ->
  (Z.to_nat (getNumberOfDimensions rep) <= length out)%nat ->
  (alpha_ rep = [] ->
   vectorize rep p junk out
   = Some (temp ++ drop (Z.to_nat (getNumberOfDimensions rep)) out))
  /\
  exists rep',
    setRescaleValues rep (replicate (Z.to_nat (getNumberOfDimensions rep)) one)
    = Some rep'
    /\ project rep' p junk = Some temp
    /\ vectorize rep' p junk out
       = Some (temp ++ drop (Z.to_nat (getNumberOfDimensions rep)) out).
Proof.
  unfold getNumberOfDimensions. intros Hk Hp Hfl Hout.
  destruct (project_Some _ _ _ _ Hk Hp) as [Hn Hlen].
  split; [apply (vectorize_spec rep p junk out temp Hk Hp Hout)|].
  rewrite setRescaleValues_spec by (rewrite ?length_replicate; lia).
  rewrite take_ge by (rewrite length_replicate; lia).
  set (ones := replicate (Z.to_nat (nr_dimensions_ rep)) one).
  set (rep' := mkPointRepresentation (nr_dimensions_ rep) ones (copyToFloatArray rep)).
  assert (Hk' : keeps_size rep') by exact Hk.
  assert (Hp' : project rep' p junk = Some temp) by exact Hp.
  destruct (vectorize_spec rep' p junk out temp Hk' Hp' Hout) as [_ Hv].
  exists rep'. split; [done|]. split; [done|].
  rewrite Hv by (cbn; subst ones; rewrite length_replicate; lia).
  do 2 f_equal. cbn [alpha_ rep']. subst ones. rewrite <- Hlen.
  clear -Hfl. induction Hfl as [|x l Hx _ IH]; [done|].
  cbn. by rewrite mul_one_r, IH.
Qed.

Lemma vectorize_unit_rescale_witness :
  exists rep',
    setRescaleValues DefaultPointRepresentation_PointXYZI [one; one; one]
    = Some rep'
    /\ vectorize rep' (PointXYZI.mk one nan minus_one infinity)
         [zero; zero; zero] [zero; zero; zero; two]
       = Some [one; nan; minus_one; two].
Proof.
  destruct (vectorize_unit_rescale DefaultPointRepresentation_PointXYZI
              (PointXYZI.mk one nan minus_one infinity)
              [zero; zero; zero] [zero; zero; zero; two]
              [one; nan; minus_one])
    as [_ (rep' & Hs & _ & Hv)].
  - exact keeps_size_PointXYZI.
  - reflexivity.
  - repeat constructor.
  - cbn. lia.
  - exists rep'. split; [exact Hs | exact Hv].
Defined.

(** C4.  [isValid] returns, and it returns true exactly when each of the
    [getNumberOfDimensions] projected components of the point is finite. *)
Theorem isValid_iff_all_finite {PointT : Type}
    (rep : PointRepresentation PointT) (p : PointT) (junk temp : buffer) :
  keeps_size rep ->
  project rep p junk = Some temp ->
  exists b,
    isValid rep p junk = Some b
    /\ (b = true <->
        forall i, (i < Z.to_nat (getNumberOfDimensions rep))%nat ->
          exists x, temp !! i = Some x /\ pcl_isfinite x = true).
Proof.
  unfold getNumberOfDimensions. intros Hk Hp.
  destruct (project_Some _ _ _ _ Hk Hp) as [Hn Hlen].
  exists (forallb pcl_isfinite temp). split; [by apply isValid_spec|].
  rewrite forallb_forall. split.
  - intros Hall i Hi.
    destruct (lookup_lt_is_Some_2 temp i) as [x Hx]; [lia|].
    exists x. split; [done|]. apply Hall.
    apply list_elem_of_In, list_elem_of_lookup. eauto.
  - intros Hall x Hx.
    apply list_elem_of_In, list_elem_of_lookup in Hx as [i Hi].
    destruct (Hall i) as [y [Hy Hfin]]; [apply lookup_lt_Some in Hi; lia|].
    congruence.
Qed.

Lemma isValid_iff_all_finite_witness :
  exists b,
    isValid DefaultPointRepresentation_PointXYZI
      (PointXYZI.mk one nan minus_one one) [zero; zero; zero] = Some b
    /\ (b = true <->
        forall i, (i < 3)%nat ->
          exists x, [one; nan; minus_one] !! i = Some x /\ pcl_isfinite x = true).
Proof.
  apply (isValid_iff_all_finite DefaultPointRepresentation_PointXYZI
           (PointXYZI.mk one nan minus_one one) [zero; zero; zero]
           [one; nan; minus_one]).
  - exact keeps_size_PointXYZI.
  - reflexivity.
Defined.

(** C7, as the code has it.  [setRescaleValues] checks nothing: handed any
    array of at least [getNumberOfDimensions] floats, whatever their sign, it
    returns the representation whose rescale values are the first
    [getNumberOfDimensions] floats of the array. *)
Theorem setRescaleValues_stores_unchecked {PointT : Type}
    (rep : PointRepresentation PointT) (rescale_array : buffer) :
  0 <= getNumberOfDimensions rep ->
  (Z.to_nat (getNumberOfDimensions rep) <= length rescale_array)%nat ->
  setRescaleValues rep rescale_array
  = Some (mkPointRepresentation (getNumberOfDimensions rep)
            (take (Z.to_nat (getNumberOfDimensions rep)) rescale_array)
            (copyToFloatArray rep)).
Proof.
  intros Hn Hlen. unfold getNumberOfDimensions in *.
  apply setRescaleValues_spec; assumption.
Qed.

Lemma setRescaleValues_stores_unchecked_witness :
  setRescaleValues DefaultPointRepresentation_PointXYZ [minus_one; zero; nan; two]
  = Some (mkPointRepresentation 3 [minus_one; zero; nan]
            (copyToFloatArray DefaultPointRepresentation_PointXYZ)).
Proof.
  apply (setRescaleValues_stores_unchecked DefaultPointRepresentation_PointXYZ
           [minus_one; zero; nan; two]).
  - cbn. lia.
  - cbn. lia.
Defined.

(** C7, as stated, fails: an array holding a negative value, a zero and a NaN
    is accepted and stored, and so is an array longer than the representation
    has dimensions. *)
Lemma setRescaleValues_accepts_invalid :
  (is_positive minus_one = false /\ is_positive zero = false
   /\ is_positive nan = false
   /\ exists rep',
        setRescaleValues DefaultPointRepresentation_PointXYZ [minus_one; zero; nan]
        = Some rep'
        /\ alpha_ rep' = [minus_one; zero; nan])
  /\
  (length [one; one; one; one; one] <> Z.to_nat
     (getNumberOfDimensions DefaultPointRepresentation_PointXYZ)
   /\ exists rep',
        setRescaleValues DefaultPointRepresentation_PointXYZ
          [one; one; one; one; one] = Some rep'
        /\ alpha_ rep' = [one; one; one]).
Proof.
  split.
  - do 3 (split; [reflexivity|]). eexists. split; reflexivity.
  - split; [cbn; lia|]. eexists. split; reflexivity.
Qed.

(** ** The primary template and [CustomPointRepresentation] *)

Lemma total_floats_nonneg (P : Type) `{PointLayout P} : 0 <= total_floats P.
Proof.
  unfold total_floats, sizeof_float.
  apply Z.div_pos; [apply sizeof_nonneg | lia].
Qed.

Lemma DefaultPointRepresentation_dims_spec (P : Type) `{PointLayout P} :
  total_floats P <= INT_MAX ->
  DefaultPointRepresentation_dims P = Z.min (total_floats P) 3.
Proof.
  intros Hfit. pose proof (total_floats_nonneg P) as H0.
  unfold DefaultPointRepresentation_dims.
  rewrite to_int_to_size_t by (unfold is_int, INT_MIN, INT_MAX in *; lia).
  destruct (Z.ltb_spec 3 (total_floats P)); lia.
Qed.

Lemma DefaultPointRepresentation_copy_spec (P : Type) `{PointLayout P}
    (nr : Z) (p : P) (out : buffer) :
  nr <= total_floats P ->
  (Z.to_nat nr <= length out)%nat ->
  DefaultPointRepresentation_copy P nr p out
  = Some (take (Z.to_nat nr) (as_floats p) ++ drop (Z.to_nat nr) out).
Proof.
  intros Hnr Hout. unfold DefaultPointRepresentation_copy.
  pose proof (as_floats_length p) as Hlen. fold (total_floats P) in Hlen.
  apply for_upto_fill; [done| |].
  - rewrite length_take. lia.
  - intros j Hj. by rewrite lookup_take_lt.
Qed.

Lemma read_drop (l : buffer) (start : Z) (j : nat) :
  0 <= start -> read l (start + Z.of_nat j) = drop (Z.to_nat start) l !! j.
Proof.
  intros Hs. unfold read. rewrite decide_True by lia.
  rewrite lookup_drop. f_equal. lia.
Qed.

Lemma CustomPointRepresentation_dims_spec (P : Type) `{PointLayout P}
    (max_dim start_dim : Z) :
  is_int start_dim ->
  total_floats P - start_dim <= INT_MAX ->
  CustomPointRepresentation_dims P max_dim start_dim
  = Z.min (total_floats P - start_dim) max_dim.
Proof.
  intros Hs Hfit. pose proof (total_floats_nonneg P) as H0.
  unfold CustomPointRepresentation_dims.
  rewrite to_int_size_t_sub by (unfold is_int, INT_MIN, INT_MAX in *; lia).
  destruct (Z.ltb_spec max_dim (total_floats P - start_dim)); lia.
Qed.

Lemma CustomPointRepresentation_copy_spec (P : Type) `{PointLayout P}
    (nr start_dim : Z) (p : P) (out : buffer) :
  0 <= start_dim ->
  nr <= total_floats P - start_dim ->
  (Z.to_nat nr <= length out)%nat ->
  CustomPointRepresentation_copy P nr start_dim p out
  = Some (take (Z.to_nat nr) (drop (Z.to_nat start_dim) (as_floats p))
          ++ drop (Z.to_nat nr) out).
Proof.
  intros Hs Hnr Hout. unfold CustomPointRepresentation_copy.
  pose proof (as_floats_length p) as Hlen. fold (total_floats P) in Hlen.
  apply for_upto_fill; [done| |].
  - rewrite length_take, length_drop. lia.
  - intros j Hj. rewrite read_drop by done. by rewrite lookup_take_lt.
Qed.

(** C5, as the code has it.  Provided [total_floats - start_dim] is an [int]
    (as it is for every [start_dim] from zero on), the custom representation
    has [getNumberOfDimensions = min (total_floats - start_dim, max_dim)]; and
    for [start_dim] from zero on, [copyToFloatArray] writes that many floats of
    the point, those from offset [start_dim] on, into the first cells of the
    array (none when the number is not positive). *)
Theorem custom_representation_subrange (P : Type) `{PointLayout P}
    (max_dim start_dim : Z) (p : P) (out : buffer) :
  is_int max_dim ->
  is_int start_dim ->
  total_floats P - start_dim <= INT_MAX ->
  getNumberOfDimensions (CustomPointRepresentation P max_dim start_dim)
  = Z.min (total_floats P - start_dim) max_dim
  /\
  (0 <= start_dim ->
   (Z.to_nat (Z.min (total_floats P - start_dim) max_dim) <= length out)%nat ->
   copyToFloatArray (CustomPointRepresentation P max_dim start_dim) p out
   = Some (take (Z.to_nat (Z.min (total_floats P - start_dim) max_dim))
             (drop (Z.to_nat start_dim) (as_floats p))
           ++ drop (Z.to_nat (Z.min (total_floats P - start_dim) max_dim)) out)).
Proof.
  intros Hm Hs Hfit.
  pose proof (CustomPointRepresentation_dims_spec P max_dim start_dim Hs Hfit)
    as Hd.
  split; [exact Hd|].
  intros H0 Hout. cbn [copyToFloatArray CustomPointRepresentation].
  rewrite Hd. apply CustomPointRepresentation_copy_spec; [done|lia|done].
Qed.

Lemma custom_representation_subrange_witness :
  getNumberOfDimensions (CustomPointRepresentation (vec float 4) 2 1) = 2
  /\ copyToFloatArray (CustomPointRepresentation (vec float 4) 2 1)
       [# one; two; minus_one; nan] [zero; zero; zero]
     = Some [two; minus_one; zero].
Proof.
  destruct (custom_representation_subrange (vec float 4) 2 1
              [# one; two; minus_one; nan] [zero; zero; zero])
    as [Hd Hc].
  - unfold is_int, INT_MIN, INT_MAX. lia.
  - unfold is_int, INT_MIN, INT_MAX. lia.
  - vm_compute. discriminate.
  - split; [exact Hd|]. apply Hc; [lia | vm_compute; lia].
Defined.

(** C5, as stated, fails for a negative [start_dim].  For a point type of four
    floats and [max_dim = 3]: with [start_dim = INT_MIN] the difference
    wraps around and the representation has -2147483644 dimensions, not
    [min (4 - INT_MIN, 3) = 3]; with [start_dim = -1] the representation has
    three dimensions, and [copyToFloatArray] reads the float that precedes
    the point. *)
Lemma custom_representation_negative_start :
  (is_int INT_MIN
   /\ getNumberOfDimensions (CustomPointRepresentation (vec float 4) 3 INT_MIN)
      = -2147483644
   /\ Z.min (total_floats (vec float 4) - INT_MIN) 3 = 3)
  /\
  (getNumberOfDimensions (CustomPointRepresentation (vec float 4) 3 (-1)) = 3
   /\ copyToFloatArray (CustomPointRepresentation (vec float 4) 3 (-1))
        [# one; two; minus_one; nan] [zero; zero; zero]
      = None).
Proof.
  split.
  - split; [unfold is_int, INT_MIN, INT_MAX; lia|].
    split; reflexivity.
  - split; reflexivity.
Qed.

(** ** [DefaultFeatureRepresentation] *)

Lemma IncrementFunctor_fold (P : Type) `{FeatureTraits P}
    (fields : list (Key P)) : forall n0,
  0 <= n0 ->
  Forall (fun k => 0 <= datatype_size k) fields ->
  n0 + Z_sum (datatype_size <$> fields) <= INT_MAX ->
  fold_left (IncrementFunctor P) fields n0
  = n0 + Z_sum (datatype_size <$> fields).
Proof.
  induction fields as [|k fields IH]; intros n0 H0 Hpos Hfit; cbn in *.
  - lia.
  - inversion Hpos as [|? ? Hk Hrest]; subst.
    assert (0 <= Z_sum (datatype_size <$> fields)) as Hsum.
    { clear -Hrest. induction Hrest; cbn; [lia|]. unfold Z_sum in *. cbn. lia. }
    unfold Z_sum in *.
    unfold IncrementFunctor at 2.
    rewrite to_int_uint32_add by (unfold is_int, INT_MIN, INT_MAX in *; lia).
    rewrite IH; [lia|lia|done|lia].
Qed.

(** C6.  The default feature representation of [FPFHSignature33] has 33
    dimensions and that of [VFHSignature308] has 308; for any feature type,
    whose fields' element counts are unsigned and add up to an [int], the
    default feature representation has as many dimensions as its declared
    fields have elements in total. *)
Theorem default_feature_dims (P : Type) `{FeatureTraits P} :
  Forall (fun k => 0 <= datatype_size k) (FieldList P) ->
  Z_sum (datatype_size <$> FieldList P) <= INT_MAX ->
  getNumberOfDimensions DefaultPointRepresentation_FPFHSignature33 = 33
  /\ getNumberOfDimensions DefaultPointRepresentation_VFHSignature308 = 308
  /\ getNumberOfDimensions (DefaultFeatureRepresentation P)
     = Z_sum (datatype_size <$> FieldList P).
Proof.
  intros Hpos Hfit. split; [reflexivity|]. split; [reflexivity|].
  unfold getNumberOfDimensions. cbn [nr_dimensions_ DefaultFeatureRepresentation].
  unfold DefaultFeatureRepresentation_dims.
  rewrite IncrementFunctor_fold; [lia|lia|done|lia].
Qed.

Lemma default_feature_dims_witness :
  getNumberOfDimensions DefaultPointRepresentation_FPFHSignature33 = 33
  /\ getNumberOfDimensions DefaultPointRepresentation_VFHSignature308 = 308
  /\ getNumberOfDimensions DefaultPointRepresentation_PPFSignature = 4.
Proof.
  refine (default_feature_dims PPFSignature.t _ _).
  - repeat constructor; cbn; lia.
  - vm_compute. discriminate.
Defined.

(** ** The default representation of positional points *)

Lemma new_float_array_Some (n : Z) (junk : buffer) :
  0 <= n -> length junk = Z.to_nat n -> new_float_array n junk = Some junk.
Proof. intros. unfold new_float_array. by rewrite decide_True. Qed.

Lemma project_Default (P : Type) `{PointLayout P} (p : P) (junk : buffer) :
  total_floats P <= INT_MAX ->
  length junk = Z.to_nat (Z.min (total_floats P) 3) ->
  project (DefaultPointRepresentation P) p junk
  = Some (take (Z.to_nat (Z.min (total_floats P) 3)) (as_floats p)).
Proof.
  intros Hfit Hjunk. pose proof (total_floats_nonneg P) as H0.
  unfold project. cbn [nr_dimensions_ copyToFloatArray DefaultPointRepresentation].
  rewrite DefaultPointRepresentation_dims_spec by done.
  rewrite new_float_array_Some by lia. cbn [mbind option_bind].
  rewrite DefaultPointRepresentation_copy_spec by lia.
  rewrite drop_ge by lia. by rewrite app_nil_r.
Qed.

Lemma project_PointXYZI (q : PointXYZI.t) (junk : buffer) :
  length junk = 3%nat ->
  project DefaultPointRepresentation_PointXYZI q junk
  = Some [PointXYZI.x q; PointXYZI.y q; PointXYZI.z q].
Proof.
  intros Hjunk. unfold project. cbn [nr_dimensions_ copyToFloatArray
    DefaultPointRepresentation_PointXYZI].
  rewrite new_float_array_Some by (cbn; lia). cbn [mbind option_bind].
  rewrite copy_xyz_spec by lia. by rewrite drop_ge by lia.
Qed.

(** C10.  For a point type of [total_floats] floats (an [int]), the primary
    template of [DefaultPointRepresentation] has
    [min (total_floats, 3)] dimensions and projects, and vectorizes, a point to
    the first that many floats of its layout.  The specialisation for
    [PointXYZI] has three dimensions and projects, and vectorizes, a point to
    its x, y and z: the intensity is no part of the result. *)
Theorem default_representation_first_three (P : Type) `{PointLayout P}
    (p : P) (q : PointXYZI.t) (junk junk3 out : buffer) :
  total_floats P <= INT_MAX ->
  length junk = Z.to_nat (Z.min (total_floats P) 3) ->
  length junk3 = 3%nat ->
  (3 <= length out)%nat ->
  (getNumberOfDimensions (DefaultPointRepresentation P)
   = Z.min (total_floats P) 3
   /\ project (DefaultPointRepresentation P) p junk
      = Some (take (Z.to_nat (Z.min (total_floats P) 3)) (as_floats p))
   /\ vectorize (DefaultPointRepresentation P) p junk out
      = Some (take (Z.to_nat (Z.min (total_floats P) 3)) (as_floats p)
              ++ drop (Z.to_nat (Z.min (total_floats P) 3)) out))
  /\
  (getNumberOfDimensions DefaultPointRepresentation_PointXYZI = 3
   /\ project DefaultPointRepresentation_PointXYZI q junk3
      = Some [PointXYZI.x q; PointXYZI.y q; PointXYZI.z q]
   /\ vectorize DefaultPointRepresentation_PointXYZI q junk3 out
      = Some (PointXYZI.x q :: PointXYZI.y q :: PointXYZI.z q :: drop 3 out)).
Proof.
  intros Hfit Hjunk Hjunk3 Hout.
  pose proof (DefaultPointRepresentation_dims_spec P Hfit) as Hd.
  pose proof (project_Default P p junk Hfit Hjunk) as Hp.
  pose proof (project_PointXYZI q junk3 Hjunk3) as Hq.
  split; [|split; [reflexivity|split; [exact Hq|]]].
  - split; [exact Hd|]. split; [exact Hp|].
    destruct (vectorize_spec (DefaultPointRepresentation P) p junk out _
                (keeps_size_Default P) Hp) as [Hv _].
    + cbn [nr_dimensions_ DefaultPointRepresentation]. rewrite Hd. lia.
    + rewrite Hv by reflexivity.
      cbn [nr_dimensions_ DefaultPointRepresentation]. by rewrite Hd.
  - destruct (vectorize_spec DefaultPointRepresentation_PointXYZI q junk3 out _
                keeps_size_PointXYZI Hq) as [Hv _].
    + cbn. lia.
    + by rewrite Hv.
Qed.

Lemma default_representation_first_three_witness :
  (getNumberOfDimensions (DefaultPointRepresentation (vec float 2)) = 2
   /\ vectorize (DefaultPointRepresentation (vec float 5))
        [# one; two; minus_one; nan; infinity] [zero; zero; zero]
        [zero; zero; zero; zero]
      = Some [one; two; minus_one; zero])
  /\ vectorize DefaultPointRepresentation_PointXYZI
       (PointXYZI.mk one two minus_one nan) [zero; zero; zero]
       [zero; zero; zero; zero]
     = Some [one; two; minus_one; zero].
Proof.
  split; [split|].
  - refine (proj1 (proj1 (default_representation_first_three (vec float 2)
              [# one; two] (PointXYZI.mk one two minus_one nan)
              [zero; zero] [zero; zero; zero] [zero; zero; zero; zero]
              _ _ _ _))); vm_compute; (discriminate || reflexivity || lia).
  - refine (proj2 (proj2 (proj1 (default_representation_first_three (vec float 5)
              [# one; two; minus_one; nan; infinity]
              (PointXYZI.mk one two minus_one nan)
              [zero; zero; zero] [zero; zero; zero] [zero; zero; zero; zero]
              _ _ _ _)))); vm_compute; (discriminate || reflexivity || lia).
  - refine (proj2 (proj2 (proj2 (default_representation_first_three (vec float 5)
              [# one; two; minus_one; nan; infinity]
              (PointXYZI.mk one two minus_one nan)
              [zero; zero; zero] [zero; zero; zero] [zero; zero; zero; zero]
              _ _ _ _)))); vm_compute; (discriminate || reflexivity || lia).
Defined.

(* ===================================================================== *)
(** * Part III: the pyramid test *)
(* ===================================================================== *)

Module PyramidFeatureHistogramTestFacts.
Import PyramidFeatureHistogramTest.

(** The constants are the literals of the test: each is within half a unit
    in the last place of its decimal. *)
Lemma literals_nearest :
  (Qabs (to_Q M_PI - (314159265358979323846 # 100000000000000000000))
     <= Qpower 2 (-52))%Q
  /\ (Qabs (to_Q expected_similarity_value - (739672 # 1000000))
        <= Qpower 2 (-54))%Q
  /\ (Qabs (to_Q expected_similarity_value2 - (801435 # 1000000))
        <= Qpower 2 (-54))%Q
  /\ (Qabs (to_Q expected_similarity_value3 - (881507 # 1000000))
        <= Qpower 2 (-54))%Q
  /\ (Qabs (to_Q abs_error - (1 # 10000)) <= Qpower 2 (-67))%Q.
Proof. repeat split; vm_compute; discriminate. Qed.

(** The [float] literals are the integers they denote, and the ends of the
    angular ranges are the floats nearest to the multiples of pi. *)
Lemma float_literals :
  float_literal 0 = zero /\ float_literal 1 = one /\ float_literal 2 = two
  /\ (to_Q (float_literal 5) == 5)%Q /\ (to_Q (float_literal 10) == 10)%Q
  /\ (to_Q (float_literal 20) == 20)%Q /\ (to_Q (float_literal 50) == 50)%Q.
Proof. repeat split; vm_compute; reflexivity. Qed.

Lemma ranges_are_floats :
  Forall (fun r => is_float r.1 /\ is_float r.2)
    (dim_range_input ++ dim_range_target ++ dim_range_target2
     ++ dim_range_target3).
Proof. repeat constructor. Qed.





End PyramidFeatureHistogramTestFacts.




(* ===================================================================== *)
(** * Part IV: further properties of the point representations *)
(* ===================================================================== *)

(** ** [DefaultFeatureRepresentation]: the fields in declaration order *)

(** A loop that writes [g i] at the running index of the output array. *)
Lemma for_loop_append (g : nat -> option float) :
  forall (vs : list float) i0 (b : buffer) j0,
    mapM g (seq i0 (length vs)) = Some vs ->
    (j0 + length vs <= length b)%nat ->
    for_loop (fun i (st : list float * nat) =>
                let '(b, j) := st in
                v ← g i; b ← store b j v; Some (b, S j))
      i0 (length vs) (b, j0)
    = Some (take j0 b ++ vs ++ drop (j0 + length vs) b, (j0 + length vs)%nat).
Proof.
  induction vs as [|v vs IH]; intros i0 b j0 Hg Hlen; cbn [length for_loop].
  - rewrite Nat.add_0_r, app_nil_l, take_drop. done.
  - cbn [length seq mapM] in Hg, Hlen.
    destruct (g i0) as [v'|] eqn:Hv; [|done]. cbn in Hg.
    destruct (mapM g (seq (S i0) (length vs))) as [vs'|] eqn:Hrest; [|done].
    cbn in Hg. injection Hg as -> ->. cbn [mbind option_bind].
    rewrite store_Some by lia. cbn [mbind option_bind].
    rewrite (IH (S i0) _ (S j0) Hrest) by (rewrite length_insert; lia).
    do 2 f_equal; [|lia].
    rewrite (take_S_r (<[j0:=v]> b) j0 v) by (apply list_lookup_insert_eq; lia).
    rewrite take_insert_ge by lia.
    rewrite drop_insert_lt by lia.
    rewrite <- app_assoc. cbn. do 4 f_equal. lia.
Qed.

Section Feature.
Context {P : Type} `{FeatureTraits P}.

Lemma NdCopyPointFunctor_spec (p : P) (k : Key P) (vs : list float)
    (p2 : buffer) (f_idx : nat) :
  field_floats p k = Some vs ->
  (f_idx + length vs <= length p2)%nat ->
  NdCopyPointFunctor P p (p2, f_idx) k
  = Some (take f_idx p2 ++ vs ++ drop (f_idx + length vs) p2,
          (f_idx + length vs)%nat).
Proof.
  intros Hvs Hlen. unfold NdCopyPointFunctor, field_floats in *.
  destruct (datatype_is_array k).
  - pose proof (length_mapM _ _ _ Hvs) as Hl. rewrite length_seq in Hl.
    unfold for_upto. rewrite Hl.
    apply (for_loop_append (field_element p k)); [|done].
    by rewrite <- Hl.
  - destruct (field_element p k 0%nat) as [v|]; [|done].
    cbn in Hvs. injection Hvs as <-. cbn [mbind option_bind length] in *.
    rewrite store_Some by lia. cbn [mbind option_bind].
    do 2 f_equal; [|lia].
    rewrite insert_take_drop by lia. cbn. do 3 f_equal. lia.
Qed.

Lemma for_each_field_spec (p : P) (fields : list (Key P)) :
  forall (vss : list (list float)) (p2 : buffer) (f_idx : nat),
    mapM (field_floats p) fields = Some vss ->
    (f_idx + length (mjoin vss) <= length p2)%nat ->
    foldl (fun st k => st ← st; NdCopyPointFunctor P p st k)
          (Some (p2, f_idx)) fields
    = Some (take f_idx p2 ++ mjoin vss ++ drop (f_idx + length (mjoin vss)) p2,
            (f_idx + length (mjoin vss))%nat).
Proof.
  induction fields as [|k fields IH]; intros vss p2 f_idx Hvss Hlen.
  - cbn in Hvss. injection Hvss as <-. cbn.
    by rewrite Nat.add_0_r, take_drop.
  - cbn [mapM] in Hvss.
    destruct (field_floats p k) as [vs|] eqn:Hk; [|done]. cbn in Hvss.
    destruct (mapM (field_floats p) fields) as [vss'|] eqn:Hrest; [|done].
    cbn in Hvss. injection Hvss as <-.
    change (mjoin (vs :: vss')) with (vs ++ mjoin vss') in *.
    rewrite length_app in Hlen.
    cbn [foldl mbind option_bind].
    rewrite (NdCopyPointFunctor_spec p k vs) by (done || lia).
    rewrite (IH vss' _ _ eq_refl).
    2:{ rewrite !length_app, length_take, length_drop. lia. }
    f_equal. f_equal; [|rewrite length_app; lia].
    rewrite take_app_ge by (rewrite length_take; lia).
    rewrite length_take, Nat.min_l by lia.
    replace (f_idx + length vs - f_idx)%nat with (length vs) by lia.
    rewrite take_app_ge by lia. rewrite Nat.sub_diag, take_0, app_nil_r.
    rewrite <- !app_assoc. do 3 f_equal.
    rewrite !drop_app_ge by (rewrite ?length_take; lia).
    rewrite length_take, Nat.min_l by lia.
    rewrite drop_drop. f_equal. rewrite length_app. lia.
Qed.

(** What [copyToFloatArray] writes, given the floats of the fields. *)
Lemma feature_copy_spec (p : P) (vs : list float) (out : buffer) :
  feature_floats p = Some vs ->
  (length vs <= length out)%nat ->
  copyToFloatArray (DefaultFeatureRepresentation P) p out
  = Some (vs ++ drop (length vs) out).
Proof.
  unfold feature_floats. intros Hvs Hlen.
  destruct (mapM (field_floats p) (FieldList P)) as [vss|] eqn:Hm; [|done].
  cbn in Hvs. injection Hvs as <-.
  cbn [copyToFloatArray DefaultFeatureRepresentation].
  unfold DefaultFeatureRepresentation_copy.
  rewrite (for_each_field_spec p _ vss) by (done || (cbn; lia)).
  cbn. by rewrite take_0.
Qed.

(** X1.  [copyToFloatArray] of the default feature representation writes the
    floats of the fields one after the other, in the order of the field
    list, into the first cells of the array, and leaves the cells after
    them as they were. *)
Theorem feature_copy_in_declaration_order (p : P) (vs : list float) (out : buffer) :
  feature_floats p = Some vs ->
  (length vs <= length out)%nat ->
  copyToFloatArray (DefaultFeatureRepresentation P) p out
  = Some (vs ++ drop (length vs) out)
  /\ forall i, (length vs <= i)%nat ->
       (vs ++ drop (length vs) out) !! i = out !! i.
Proof.
  intros Hvs Hlen. split; [by apply feature_copy_spec|].
  intros i Hi. rewrite lookup_app_r by lia. rewrite lookup_drop.
  f_equal. lia.
Qed.

Lemma field_floats_length (p : P) (k : Key P) (vs : list float) :
  (datatype_is_array k = false -> datatype_size k = 1) ->
  field_floats p k = Some vs ->
  length vs = Z.to_nat (datatype_size k).
Proof.
  unfold field_floats. intros Hsc.
  destruct (datatype_is_array k).
  - intros Hm. apply length_mapM in Hm. by rewrite length_seq in Hm.
  - rewrite Hsc by done. destruct (field_element p k 0%nat); [|done].
    by intros [= <-].
Qed.

Lemma feature_floats_length (p : P) (vs : list float) :
  Forall (fun k => 0 <= datatype_size k
                   /\ (datatype_is_array k = false -> datatype_size k = 1))
         (FieldList P) ->
  feature_floats p = Some vs ->
  Z.of_nat (length vs) = Z_sum (datatype_size <$> FieldList P).
Proof.
  unfold feature_floats. intros Hall Hvs.
  destruct (mapM (field_floats p) (FieldList P)) as [vss|] eqn:Hm; [|done].
  cbn in Hvs. injection Hvs as <-.
  apply mapM_Some_1 in Hm. revert Hall.
  induction Hm as [|k vs ks vss Hk _ IH]; intros Hall; [done|].
  inversion Hall as [|? ? [Hpos Hsc] Hrest]; subst.
  change (mjoin (vs :: vss)) with (vs ++ mjoin vss).
  rewrite length_app, Nat2Z.inj_add, (IH Hrest).
  rewrite (field_floats_length p k vs Hsc Hk). cbn. unfold Z_sum. lia.
Qed.

(** X2.  For a feature type whose scalar fields have size one (and whose
    sizes are unsigned and add up to an [int]), the constructor and
    [copyToFloatArray] agree: the floats written are exactly
    [getNumberOfDimensions] many, so the projection fills every cell of the
    fresh array. *)
Theorem feature_project_fills_all_dimensions (p : P) (vs junk : list float) :
  Forall (fun k => 0 <= datatype_size k
                   /\ (datatype_is_array k = false -> datatype_size k = 1))
         (FieldList P) ->
  Z_sum (datatype_size <$> FieldList P) <= INT_MAX ->
  feature_floats p = Some vs ->
  length junk = length vs ->
  Z.of_nat (length vs) = getNumberOfDimensions (DefaultFeatureRepresentation P)
  /\ project (DefaultFeatureRepresentation P) p junk = Some vs.
Proof.
  intros Hall Hfit Hvs Hjunk.
  pose proof (feature_floats_length p vs Hall Hvs) as Hlen.
  assert (getNumberOfDimensions (DefaultFeatureRepresentation P)
          = Z_sum (datatype_size <$> FieldList P)) as Hd.
  { unfold getNumberOfDimensions.
    cbn [nr_dimensions_ DefaultFeatureRepresentation].
    unfold DefaultFeatureRepresentation_dims.
    rewrite IncrementFunctor_fold; [lia|lia| |lia].
    eapply Forall_impl; [|exact Hall]. by intros k [? _]. }
  split; [lia|].
  unfold project. unfold getNumberOfDimensions in Hd. rewrite Hd.
  rewrite new_float_array_Some by lia. cbn [mbind option_bind].
  rewrite (feature_copy_spec p vs junk Hvs) by lia.
  rewrite drop_ge by lia. by rewrite app_nil_r.
Qed.
End Feature.


Lemma for_loop_invariant {S : Type} (Inv : S -> Prop)
    (body : nat -> S -> option S) todo :
  (forall i s s', Inv s -> body i s = Some s' -> Inv s') ->
  forall i s s', Inv s -> for_loop body i todo s = Some s' -> Inv s'.
Proof.
  intros Hbody. induction todo as [|k IH]; intros i s s' Hs; cbn.
  - by intros [= <-].
  - destruct (body i s) as [s1|] eqn:Hb; [|done]. cbn.
    apply IH. by eapply Hbody.
Qed.

Lemma NdCopyPointFunctor_length {P : Type} `{FeatureTraits P}
    (p : P) (k : Key P) (st st' : list float * nat) :
  NdCopyPointFunctor P p st k = Some st' -> length st'.1 = length st.1.
Proof.
  destruct st as [p2 f_idx]. unfold NdCopyPointFunctor.
  destruct (datatype_is_array k).
  - unfold for_upto.
    apply (for_loop_invariant (fun s => length s.1 = length p2)); [|done].
    intros i [b j] s' Hb. destruct (field_element p k i) as [v|]; [|done].
    cbn. destruct (store b j v) as [b'|] eqn:Hs; [|done]. cbn.
    intros [= <-]. cbn in *. apply store_length in Hs. lia.
  - destruct (field_element p k 0%nat) as [v|]; [|done]. cbn.
    destruct (store p2 f_idx v) as [b'|] eqn:Hs; [|done]. cbn.
    intros [= <-]. cbn. by apply store_length in Hs.
Qed.

Lemma keeps_size_DefaultFeature (P : Type) `{FeatureTraits P} :
  keeps_size (DefaultFeatureRepresentation P).
Proof.
  intros p b b'. cbn [copyToFloatArray DefaultFeatureRepresentation].
  unfold DefaultFeatureRepresentation_copy.
  assert (forall fields (st0 : option (list float * nat)) st,
            (forall s, st0 = Some s -> length s.1 = length b) ->
            foldl (fun st k => st ← st; NdCopyPointFunctor P p st k) st0 fields
            = Some st ->
            length st.1 = length b) as Hfold.
  { induction fields as [|k fields IH]; intros st0 st Hst0; cbn [foldl].
    - apply Hst0.
    - apply IH. intros s. destruct st0 as [s0|]; [|done]. cbn.
      intros Hk. apply NdCopyPointFunctor_length in Hk.
      rewrite Hk. by apply Hst0. }
  destruct (foldl _ _ _) as [st|] eqn:Hf; [|done]. cbn. intros [= <-].
  eapply Hfold; [|exact Hf]. by intros s [= <-].
Qed.

(** ** Further properties of the base class *)

Lemma for_loop_store_None (g : nat -> option float) todo :
  forall i (out : buffer) j,
    (i <= j < i + todo)%nat -> g j = None ->
    for_loop (fun j out => x ← g j; store out j x) i todo out = None.
Proof.
  induction todo as [|k IH]; intros i out j Hj Hg; [lia|].
  cbn [for_loop]. destruct (decide (j = i)) as [->|Hne].
  - by rewrite Hg.
  - destruct (g i) as [x|]; [|done]. cbn.
    destruct (store out i x) as [out'|]; [|done]. cbn.
    apply (IH _ _ j); [lia|done].
Qed.

Section BaseClassMore.
Context {PointT : Type}.
Implicit Types (rep : PointRepresentation PointT) (p : PointT).

Lemma setRescaleValues_inv rep (rescale_array : buffer) rep' :
  setRescaleValues rep rescale_array = Some rep' ->
  0 <= nr_dimensions_ rep
  /\ (Z.to_nat (nr_dimensions_ rep) <= length rescale_array)%nat
  /\ rep' = mkPointRepresentation (nr_dimensions_ rep)
              (take (Z.to_nat (nr_dimensions_ rep)) rescale_array)
              (copyToFloatArray rep).
Proof.
  intros Hs.
  destruct (decide (0 <= nr_dimensions_ rep)) as [Hn|Hn].
  - destruct (decide (Z.to_nat (nr_dimensions_ rep) <= length rescale_array)%nat)
      as [Hl|Hl].
    + rewrite setRescaleValues_spec in Hs by done. by injection Hs as <-.
    + exfalso. unfold setRescaleValues, vector_resize in Hs.
      rewrite decide_True in Hs by done. cbn [mbind option_bind] in Hs.
      unfold for_upto in Hs.
      rewrite (for_loop_store_None (fun j => rescale_array !! j) _ _ _
                 (length rescale_array)) in Hs; [done|lia|].
      by apply lookup_ge_None_2.
  - exfalso. unfold setRescaleValues, vector_resize in Hs.
    by rewrite decide_False in Hs.
Qed.

Lemma project_negative rep p junk :
  nr_dimensions_ rep < 0 -> project rep p junk = None.
Proof.
  intros Hn. unfold project, new_float_array.
  rewrite decide_False by lia. done.
Qed.

End BaseClassMore.

(** X3.  [vectorize] writes the first [getNumberOfDimensions] cells of the
    output and nothing else: the output keeps its length and every cell from
    [getNumberOfDimensions] on keeps its value, with or without rescale
    values. *)
Theorem vectorize_leaves_rest_untouched {PointT : Type}
    (rep : PointRepresentation PointT) (p : PointT) (junk out temp : buffer) :
  keeps_size rep ->
  project rep p junk = Some temp ->
  (Z.to_nat (getNumberOfDimensions rep) <= length out)%nat ->
  alpha_ rep = [] \/ length (alpha_ rep) = Z.to_nat (getNumberOfDimensions rep) ->
  exists out',
    vectorize rep p junk out = Some out'
    /\ length out' = length out
    /\ forall i, (Z.to_nat (getNumberOfDimensions rep) <= i)%nat ->
         out' !! i = out !! i.
Proof.
  unfold getNumberOfDimensions. intros Hk Hp Hout Ha.
  destruct (project_Some _ _ _ _ Hk Hp) as [Hn Hlen].
  destruct (vectorize_spec rep p junk out temp Hk Hp Hout) as [Hv0 Hv1].
  assert (exists pre, vectorize rep p junk out
                      = Some (pre ++ drop (Z.to_nat (nr_dimensions_ rep)) out)
                      /\ length pre = Z.to_nat (nr_dimensions_ rep))
    as (pre & Hv & Hpre).
  { destruct Ha as [Ha|Ha].
    - exists temp. by rewrite Hv0.
    - exists (zip_with mul temp (alpha_ rep)). rewrite Hv1 by done.
      split; [done|]. rewrite length_zip_with. lia. }
  exists (pre ++ drop (Z.to_nat (nr_dimensions_ rep)) out).
  split; [done|]. split.
  - rewrite length_app, length_drop. lia.
  - intros i Hi. rewrite lookup_app_r by lia. rewrite lookup_drop.
    f_equal. lia.
Qed.

(** X4.  [setRescaleValues] returns only when the representation has a
    dimension count that is not negative and the array holds at least that
    many floats (else the resize fails or the copy reads past the array);
    what it returns differs from the representation in the rescale values
    only. *)
Theorem setRescaleValues_only_on_enough_floats {PointT : Type}
    (rep rep' : PointRepresentation PointT) (rescale_array : buffer) :
  setRescaleValues rep rescale_array = Some rep' ->
  0 <= getNumberOfDimensions rep
  /\ (Z.to_nat (getNumberOfDimensions rep) <= length rescale_array)%nat
  /\ getNumberOfDimensions rep' = getNumberOfDimensions rep
  /\ alpha_ rep' = take (Z.to_nat (getNumberOfDimensions rep)) rescale_array
  /\ copyToFloatArray rep' = copyToFloatArray rep.
Proof.
  intros Hs. apply setRescaleValues_inv in Hs as (Hn & Hl & ->).
  unfold getNumberOfDimensions. cbn. done.
Qed.

(** X5.  A second [setRescaleValues] replaces the rescale values of the
    first: the result is the one the second call alone would give. *)
Theorem setRescaleValues_last_call_wins {PointT : Type}
    (rep rep1 : PointRepresentation PointT) (first second : buffer) :
  setRescaleValues rep first = Some rep1 ->
  (Z.to_nat (getNumberOfDimensions rep) <= length second)%nat ->
  setRescaleValues rep1 second = setRescaleValues rep second
  /\ setRescaleValues rep1 second
     = Some (mkPointRepresentation (getNumberOfDimensions rep)
               (take (Z.to_nat (getNumberOfDimensions rep)) second)
               (copyToFloatArray rep)).
Proof.
  unfold getNumberOfDimensions. intros Hs Hl.
  apply setRescaleValues_inv in Hs as (Hn & _ & ->).
  rewrite (setRescaleValues_spec rep second) by done.
  rewrite setRescaleValues_spec by done. done.
Qed.

(** X7.  [isValid] does not look at the rescale values: it answers the
    same before and after [setRescaleValues], whatever the values are. *)
Theorem isValid_ignores_rescale {PointT : Type}
    (rep rep' : PointRepresentation PointT) (rescale_array : buffer)
    (p : PointT) (junk : buffer) :
  setRescaleValues rep rescale_array = Some rep' ->
  isValid rep' p junk = isValid rep p junk.
Proof.
  intros Hs. apply setRescaleValues_inv in Hs as (_ & _ & ->). reflexivity.
Qed.

(** X6.  A custom representation whose [start_dim] lies beyond the floats of
    the point has a negative number of dimensions; its [copyToFloatArray]
    writes nothing, and [isValid], [vectorize] and [setRescaleValues] fail,
    each at its allocation of [nr_dimensions_] floats. *)
Theorem custom_start_beyond_point (P : Type) `{PointLayout P}
    (max_dim start_dim : Z) (p : P) (junk out rescale_array : buffer) :
  is_int start_dim ->
  total_floats P < start_dim ->
  getNumberOfDimensions (CustomPointRepresentation P max_dim start_dim) < 0
  /\ copyToFloatArray (CustomPointRepresentation P max_dim start_dim) p out
     = Some out
  /\ isValid (CustomPointRepresentation P max_dim start_dim) p junk = None
  /\ vectorize (CustomPointRepresentation P max_dim start_dim) p junk out = None
  /\ setRescaleValues (CustomPointRepresentation P max_dim start_dim)
       rescale_array = None.
Proof.
  intros Hs Hlt. pose proof (total_floats_nonneg P) as H0.
  assert (CustomPointRepresentation_dims P max_dim start_dim < 0) as Hd.
  { rewrite CustomPointRepresentation_dims_spec; [lia|done|].
    unfold is_int, INT_MIN, INT_MAX in *. lia. }
  split; [exact Hd|]. split.
  - cbn [copyToFloatArray CustomPointRepresentation].
    unfold CustomPointRepresentation_copy, for_upto.
    by rewrite Z2Nat.nonpos by lia.
  - assert (forall q j, project (CustomPointRepresentation P max_dim start_dim) q j
                        = None) as Hp
      by (intros; by apply project_negative).
    split; [|split].
    + unfold isValid. by rewrite Hp.
    + unfold vectorize. by rewrite Hp.
    + unfold setRescaleValues, vector_resize.
      cbn [nr_dimensions_ CustomPointRepresentation].
      by rewrite decide_False by lia.
Qed.

(** X10.  With its default arguments, [max_dim = 3] and [start_dim = 0], the
    custom representation has the dimensions of the primary template of
    [DefaultPointRepresentation] and copies the same floats, for every point
    type. *)
Theorem custom_default_arguments (P : Type) `{PointLayout P}
    (p : P) (out : buffer) :
  getNumberOfDimensions (CustomPointRepresentation P 3 0)
  = getNumberOfDimensions (DefaultPointRepresentation P)
  /\ copyToFloatArray (CustomPointRepresentation P 3 0) p out
     = copyToFloatArray (DefaultPointRepresentation P) p out.
Proof.
  assert (CustomPointRepresentation_dims P 3 0 = DefaultPointRepresentation_dims P)
    as Hd.
  { unfold CustomPointRepresentation_dims, DefaultPointRepresentation_dims.
    replace (to_size_t (to_size_t (total_floats P) - to_size_t 0))
      with (to_size_t (total_floats P)); [done|].
    unfold to_size_t. rewrite Z.mod_0_l, Z.sub_0_r by lia.
    by rewrite Z.mod_mod by lia. }
  split; [exact Hd|].
  cbn [copyToFloatArray CustomPointRepresentation DefaultPointRepresentation].
  rewrite Hd. unfold CustomPointRepresentation_copy, DefaultPointRepresentation_copy.
  unfold for_upto. apply for_loop_ext. intros j s' _.
  unfold read. rewrite decide_True by lia. do 2 f_equal. lia.
Qed.

(** ** The specialisations for positional points *)

Lemma isValid_xyz {PointT : Type} (gx gy gz : PointT -> float)
    (q : PointT) (junk : buffer) :
  length junk = 3%nat ->
  let rep := mkPointRepresentation 3 []
               (fun p out => copy_xyz (gx p) (gy p) (gz p) out) in
  project rep q junk = Some [gx q; gy q; gz q]
  /\ isValid rep q junk
     = Some (pcl_isfinite (gx q) && pcl_isfinite (gy q) && pcl_isfinite (gz q)).
Proof.
  intros Hjunk rep.
  assert (project rep q junk = Some [gx q; gy q; gz q]) as Hp.
  { unfold project. cbn [nr_dimensions_ copyToFloatArray rep].
    rewrite new_float_array_Some by (cbn; lia). cbn [mbind option_bind].
    rewrite copy_xyz_spec by lia. by rewrite drop_ge by lia. }
  split; [exact Hp|].
  rewrite (isValid_spec rep q junk _ ltac:(intros p b b'; apply copy_xyz_length) Hp).
  cbn. by rewrite andb_true_r, andb_assoc.
Qed.

(** X8.  The specialisations for [PointXYZ] and [PointNormal] project a point
    to its x, y and z, and [isValid] is true exactly when these three are
    finite: the normal and the curvature of a [PointNormal] are not read. *)
Theorem positional_specialisations_read_xyz_only
    (q : PointXYZ.t) (r : PointNormal.t) (junk : buffer) :
  length junk = 3%nat ->
  (project DefaultPointRepresentation_PointXYZ q junk
   = Some [PointXYZ.x q; PointXYZ.y q; PointXYZ.z q]
   /\ isValid DefaultPointRepresentation_PointXYZ q junk
      = Some (pcl_isfinite (PointXYZ.x q) && pcl_isfinite (PointXYZ.y q)
              && pcl_isfinite (PointXYZ.z q)))
  /\
  (project DefaultPointRepresentation_PointNormal r junk
   = Some [PointNormal.x r; PointNormal.y r; PointNormal.z r]
   /\ isValid DefaultPointRepresentation_PointNormal r junk
      = Some (pcl_isfinite (PointNormal.x r) && pcl_isfinite (PointNormal.y r)
              && pcl_isfinite (PointNormal.z r))).
Proof.
  intros Hjunk. split.
  - exact (isValid_xyz PointXYZ.x PointXYZ.y PointXYZ.z q junk Hjunk).
  - exact (isValid_xyz PointNormal.x PointNormal.y PointNormal.z r junk Hjunk).
Qed.

Lemma primary_template_on_xyz (P : Type) `{PointLayout P}
    (gx gy gz : P -> float) (p : P) (out : buffer) :
  (forall q, take 3 (as_floats q) = [gx q; gy q; gz q]) ->
  total_floats P <= INT_MAX ->
  (3 <= length out)%nat ->
  getNumberOfDimensions (DefaultPointRepresentation P) = 3
  /\ copyToFloatArray (DefaultPointRepresentation P) p out
     = copy_xyz (gx p) (gy p) (gz p) out.
Proof.
  intros Hxyz Hfit Hout.
  assert (3 <= total_floats P) as H3.
  { pose proof (as_floats_length p) as Hl. fold (total_floats P) in Hl.
    pose proof (f_equal length (Hxyz p)) as Ht.
    rewrite length_take in Ht.
    change (length [gx p; gy p; gz p]) with 3%nat in Ht. lia. }
  assert (DefaultPointRepresentation_dims P = 3) as Hd
    by (rewrite DefaultPointRepresentation_dims_spec by done; lia).
  split; [exact Hd|].
  cbn [copyToFloatArray DefaultPointRepresentation]. rewrite Hd.
  rewrite DefaultPointRepresentation_copy_spec by (done || (cbn; lia)).
  change (Z.to_nat 3) with 3%nat. rewrite Hxyz.
  by rewrite copy_xyz_spec.
Qed.

(** X9.  On any layout of [PointXYZ], [PointXYZI] and [PointNormal] whose
    first three floats are x, y and z, the explicit specialisations do what
    the primary template would: the same number of dimensions and the same
    cells written. *)
Theorem specialisations_agree_with_primary_template
    (LX : PointLayout PointXYZ.t) (LI : PointLayout PointXYZI.t)
    (LN : PointLayout PointNormal.t)
    (a : PointXYZ.t) (b : PointXYZI.t) (c : PointNormal.t) (out : buffer) :
  (forall q, take 3 (as_floats q) = [PointXYZ.x q; PointXYZ.y q; PointXYZ.z q]) ->
  (forall q, take 3 (as_floats q) = [PointXYZI.x q; PointXYZI.y q; PointXYZI.z q]) ->
  (forall q, take 3 (as_floats q)
             = [PointNormal.x q; PointNormal.y q; PointNormal.z q]) ->
  total_floats PointXYZ.t <= INT_MAX ->
  total_floats PointXYZI.t <= INT_MAX ->
  total_floats PointNormal.t <= INT_MAX ->
  (3 <= length out)%nat ->
  (getNumberOfDimensions (DefaultPointRepresentation PointXYZ.t)
   = getNumberOfDimensions DefaultPointRepresentation_PointXYZ
   /\ copyToFloatArray (DefaultPointRepresentation PointXYZ.t) a out
      = copyToFloatArray DefaultPointRepresentation_PointXYZ a out)
  /\
  (getNumberOfDimensions (DefaultPointRepresentation PointXYZI.t)
   = getNumberOfDimensions DefaultPointRepresentation_PointXYZI
   /\ copyToFloatArray (DefaultPointRepresentation PointXYZI.t) b out
      = copyToFloatArray DefaultPointRepresentation_PointXYZI b out)
  /\
  (getNumberOfDimensions (DefaultPointRepresentation PointNormal.t)
   = getNumberOfDimensions DefaultPointRepresentation_PointNormal
   /\ copyToFloatArray (DefaultPointRepresentation PointNormal.t) c out
      = copyToFloatArray DefaultPointRepresentation_PointNormal c out).
Proof.
  intros HX HI HN FX FI FN Hout. split; [|split].
  - exact (primary_template_on_xyz PointXYZ.t _ _ _ a out HX FX Hout).
  - exact (primary_template_on_xyz PointXYZI.t _ _ _ b out HI FI Hout).
  - exact (primary_template_on_xyz PointNormal.t _ _ _ c out HN FN Hout).
Qed.

(** ** Instances of the properties above *)

Lemma feature_copy_in_declaration_order_witness :
  copyToFloatArray DefaultPointRepresentation_FPFHSignature33
    (FPFHSignature33.mk (replicate 32 one ++ [two])) (replicate 35 zero)
  = Some (replicate 32 one ++ [two] ++ [zero; zero]).
Proof.
  refine (proj1 (feature_copy_in_declaration_order
           (FPFHSignature33.mk (replicate 32 one ++ [two]))
           (replicate 32 one ++ [two]) (replicate 35 zero) _ _)).
  - reflexivity.
  - cbn. lia.
Defined.

Lemma feature_project_fills_all_dimensions_witness :
  Z.of_nat (length [one; two; minus_one; nan])
  = getNumberOfDimensions DefaultPointRepresentation_PPFSignature
  /\ project DefaultPointRepresentation_PPFSignature
       (PPFSignature.mk one two minus_one nan) [zero; zero; zero; zero]
     = Some [one; two; minus_one; nan].
Proof.
  apply (feature_project_fills_all_dimensions
           (PPFSignature.mk one two minus_one nan)
           [one; two; minus_one; nan] [zero; zero; zero; zero]).
  - repeat constructor; cbn; lia.
  - vm_compute. discriminate.
  - reflexivity.
  - reflexivity.
Defined.

Lemma vectorize_leaves_rest_untouched_witness :
  exists out',
    vectorize DefaultPointRepresentation_PointXYZI
      (PointXYZI.mk one two minus_one nan) [zero; zero; zero]
      [zero; zero; zero; infinity; two] = Some out'
    /\ length out' = 5%nat
    /\ forall i, (3 <= i)%nat -> out' !! i = [zero; zero; zero; infinity; two] !! i.
Proof.
  apply (vectorize_leaves_rest_untouched DefaultPointRepresentation_PointXYZI
           (PointXYZI.mk one two minus_one nan) [zero; zero; zero]
           [zero; zero; zero; infinity; two] [one; two; minus_one]).
  - exact keeps_size_PointXYZI.
  - reflexivity.
  - cbn. lia.
  - left. reflexivity.
Defined.

Lemma setRescaleValues_only_on_enough_floats_witness :
  0 <= getNumberOfDimensions DefaultPointRepresentation_PointXYZ
  /\ (Z.to_nat (getNumberOfDimensions DefaultPointRepresentation_PointXYZ)
      <= length [two; one; two; nan])%nat
  /\ getNumberOfDimensions
       (mkPointRepresentation 3 [two; one; two]
          (copyToFloatArray DefaultPointRepresentation_PointXYZ))
     = getNumberOfDimensions DefaultPointRepresentation_PointXYZ
  /\ [two; one; two]
     = take (Z.to_nat (getNumberOfDimensions DefaultPointRepresentation_PointXYZ))
         [two; one; two; nan]
  /\ copyToFloatArray DefaultPointRepresentation_PointXYZ
     = copyToFloatArray DefaultPointRepresentation_PointXYZ.
Proof.
  apply (setRescaleValues_only_on_enough_floats
           DefaultPointRepresentation_PointXYZ
           (mkPointRepresentation 3 [two; one; two]
              (copyToFloatArray DefaultPointRepresentation_PointXYZ))
           [two; one; two; nan]).
  reflexivity.
Defined.

Lemma setRescaleValues_last_call_wins_witness :
  setRescaleValues
    (mkPointRepresentation 3 [two; two; two]
       (copyToFloatArray DefaultPointRepresentation_PointXYZ))
    [one; minus_one; one]
  = Some (mkPointRepresentation 3 [one; minus_one; one]
            (copyToFloatArray DefaultPointRepresentation_PointXYZ)).
Proof.
  apply (setRescaleValues_last_call_wins DefaultPointRepresentation_PointXYZ
           (mkPointRepresentation 3 [two; two; two]
              (copyToFloatArray DefaultPointRepresentation_PointXYZ))
           [two; two; two] [one; minus_one; one]).
  - reflexivity.
  - cbn. lia.
Defined.

Lemma isValid_ignores_rescale_witness :
  isValid
    (mkPointRepresentation 3 [nan; nan; nan]
       (copyToFloatArray DefaultPointRepresentation_PointXYZ))
    (PointXYZ.mk one two minus_one) [zero; zero; zero]
  = isValid DefaultPointRepresentation_PointXYZ
      (PointXYZ.mk one two minus_one) [zero; zero; zero].
Proof.
  apply (isValid_ignores_rescale DefaultPointRepresentation_PointXYZ
           (mkPointRepresentation 3 [nan; nan; nan]
              (copyToFloatArray DefaultPointRepresentation_PointXYZ))
           [nan; nan; nan]).
  reflexivity.
Defined.

Lemma custom_start_beyond_point_witness :
  getNumberOfDimensions (CustomPointRepresentation (vec float 4) 3 6) = -2
  /\ isValid (CustomPointRepresentation (vec float 4) 3 6)
       [# one; two; minus_one; nan] [] = None.
Proof.
  destruct (custom_start_beyond_point (vec float 4) 3 6
              [# one; two; minus_one; nan] [] [zero] [one])
    as (_ & _ & Hv & _).
  - unfold is_int, INT_MIN, INT_MAX. lia.
  - vm_compute. reflexivity.
  - split; [reflexivity | exact Hv].
Defined.

Lemma positional_specialisations_read_xyz_only_witness :
  isValid DefaultPointRepresentation_PointNormal
    (PointNormal.mk one two minus_one nan nan nan infinity) [zero; zero; zero]
  = Some true.
Proof.
  exact (proj2 (proj2 (positional_specialisations_read_xyz_only
           (PointXYZ.mk one two minus_one)
           (PointNormal.mk one two minus_one nan nan nan infinity)
           [zero; zero; zero] eq_refl))).
Defined.

Lemma specialisations_agree_with_primary_template_witness :
  copyToFloatArray (@DefaultPointRepresentation PointXYZI.t PointXYZI_layout)
    (PointXYZI.mk one two minus_one nan) [zero; zero; zero; zero]
  = copyToFloatArray DefaultPointRepresentation_PointXYZI
      (PointXYZI.mk one two minus_one nan) [zero; zero; zero; zero].
Proof.
  refine (proj2 (proj1 (proj2
    (specialisations_agree_with_primary_template
       PointXYZ_layout PointXYZI_layout PointNormal_layout
       (PointXYZ.mk one two minus_one)
       (PointXYZI.mk one two minus_one nan)
       (PointNormal.mk one two minus_one nan nan nan infinity)
       [zero; zero; zero; zero] _ _ _ _ _ _ _))));
    try (intros q; reflexivity); try (vm_compute; discriminate);
    cbn; lia.
Defined.
